(** * synapaxon-frontend: the AI client ([src/api/aiapi.ts]) and the media viewer

    A shallow embedding of the two units of the repository:

    - the four exported operations of the AI client, as functions of the
      answer the transport gives to the one request each of them sends;
    - the [MediaDisplay] component: URL resolution, the render-strategy
      choice, and the open / drag / resize handlers as transitions on the
      component's state.

    JavaScript values are untyped sums, objects are finite maps from property
    names to values, and numbers are exact rationals: the arithmetic the code
    performs on them ([-], [/ 8], [Math.max], [Math.min]) is followed exactly,
    rounding of doubles is not modelled. *)

From Stdlib Require Import ZArith QArith Qminmax Lqa String Ascii List Lia.
From stdpp Require Import gmap strings pretty.

Set Warnings "-register-all".

(** ** JavaScript values *)

Module Js.

Inductive JsVal : Type :=
| JUndefined
| JNull
| JBool (b : bool)
| JNum (q : Q)
| JStr (s : string)
| JArr (l : list JsVal)
| JObj (m : gmap string JsVal).

(** ToBoolean: [undefined], [null], [false], [0] and [""] are falsy, every
    object and array is truthy. *)
Definition truthy (v : JsVal) : bool :=
  match v with
  | JUndefined | JNull => false
  | JBool b => b
  | JNum q => negb (Qeq_bool q 0)
  | JStr s => negb (String.eqb s "")
  | JArr _ | JObj _ => true
  end.

(** [a || b] *)
Definition js_or (a b : JsVal) : JsVal := if truthy a then a else b.

Fixpoint chars_from (i : nat) (s : string) : list (string * JsVal) :=
  match s with
  | EmptyString => []
  | String c rest => (pretty i, JStr (String c EmptyString)) :: chars_from (S i) rest
  end.

Fixpoint items_from (i : nat) (l : list JsVal) : list (string * JsVal) :=
  match l with
  | [] => []
  | v :: rest => (pretty i, v) :: items_from (S i) rest
  end.

(** The own enumerable properties of a value, which are what object spread
    [{...v}] copies: the fields of an object, the indexed elements of an
    array, the indexed characters of a string (a string of the model is a
    sequence of bytes, which are the code units of an ASCII text), nothing
    for the other primitives. *)
Definition own_props (v : JsVal) : gmap string JsVal :=
  match v with
  | JObj m => m
  | JArr l => list_to_map (items_from 0 l)
  | JStr s => list_to_map (chars_from 0 s)
  | _ => ∅
  end.

(** Property read [v.k] (and [v?.k] on a value that is not nullish) for data
    properties; [length] of strings and arrays is the one non-enumerable
    data property. Methods inherited from prototypes are not values of the
    model. *)
Definition get (k : string) (v : JsVal) : JsVal :=
  match own_props v !! k with
  | Some w => w
  | None =>
      if String.eqb k "length" then
        match v with
        | JStr s => JNum (inject_Z (Z.of_nat (String.length s)))
        | JArr l => JNum (inject_Z (Z.of_nat (List.length l)))
        | _ => JUndefined
        end
      else JUndefined
  end.

(** [v?.k]: [undefined] on a nullish receiver. *)
Definition get_opt (k : string) (v : JsVal) : JsVal :=
  match v with
  | JUndefined | JNull => JUndefined
  | _ => get k v
  end.

(** [{...v, k: w}] *)
Definition spread_with (v : JsVal) (k : string) (w : JsVal) : JsVal :=
  JObj (<[k := w]> (own_props v)).

Definition of_option_string (o : option string) : JsVal :=
  match o with
  | Some s => JStr s
  | None => JUndefined
  end.

(** *** String methods *)

(** [s.startsWith(p)] *)
Definition startsWith (p s : string) : bool := String.prefix p s.

(** [s.includes(needle)] *)
Fixpoint includes (needle s : string) : bool :=
  String.prefix needle s
  || match s with
     | EmptyString => false
     | String _ rest => includes needle rest
     end.

Definition lower_ascii (c : ascii) : ascii :=
  let n := nat_of_ascii c in
  if (65 <=? n)%nat && (n <=? 90)%nat then ascii_of_nat (n + 32) else c.

(** [s.toLowerCase()] on ASCII text. *)
Fixpoint toLowerCase (s : string) : string :=
  match s with
  | EmptyString => EmptyString
  | String c rest => String (lower_ascii c) (toLowerCase rest)
  end.

(** Whether a property name is written with decimal digits only, as the
    index keys of arrays and strings are. *)
Definition is_digit (c : ascii) : bool :=
  let n := nat_of_ascii c in (48 <=? n)%nat && (n <=? 57)%nat.

Fixpoint all_digits (s : string) : bool :=
  match s with
  | EmptyString => true
  | String c rest => is_digit c && all_digits rest
  end.

End Js.

Export Js.

(** ** The AI client *)

Module AiApi.

(** *** Transport *)

Record File := { file_name : string; file_bytes : list ascii }.

Inductive FormValue :=
| FormFile (f : File)
| FormText (s : string).

Inductive Body :=
| FormData (parts : list (string * FormValue))
| Json (v : JsVal).

Record Request := { req_url : string; req_body : Body; req_content_type : option string }.

(** Of an HTTP response the client reads [data] only. *)
Record AxiosResponse := { data : JsVal }.

(** What the [catch] clauses can receive: an axios error, which carries a
    response when the server answered with a failure status and none when
    no answer arrived, or any other thrown value. *)
Inductive Thrown :=
| AxiosError (response : option AxiosResponse)
| OtherError.

Inductive PostOutcome :=
| Resolved (r : AxiosResponse)
| Rejected (e : Thrown).

(** [aiApiClient.post]: the remote service and the network, as seen from
    the client. *)
Definition Transport := Request -> PostOutcome.

(** [axios.isAxiosError(error) && error.response] *)
Definition error_response (e : Thrown) : option AxiosResponse :=
  match e with
  | AxiosError (Some r) => Some r
  | _ => None
  end.

(** *** Question generation *)

Definition generic_service_error : string :=
  "An unexpected error occurred with the AI service.".
Definition connect_service_error : string :=
  "Failed to connect to the AI service or an unexpected error occurred.".

(** The object literal on the right of [error.response.data || {...}]. *)
Definition questions_failure (d : JsVal) (fallback : string) : JsVal :=
  JObj (<["success" := JBool false]>
        (<["data" := JNull]>
         (<["message" := js_or (get_opt "detail" d)
                           (js_or (get_opt "message" d) (JStr fallback))]> ∅))).

Definition questions_unreachable (msg : string) : JsVal :=
  JObj (<["success" := JBool false]>
        (<["data" := JNull]>
         (<["message" := JStr msg]> ∅))).

Definition document_form (files : list File) (userInstructions : option string)
    (literalMode : option bool) : list (string * FormValue) :=
  map (fun f => ("files", FormFile f)) files
  ++ match userInstructions with
     | Some s => if String.eqb s "" then [] else [("user_instructions", FormText s)]
     | None => []
     end
  ++ [("literal_mode",
       FormText (if default false literalMode then "true" else "false"))].

Definition document_request (files : list File) (userInstructions : option string)
    (literalMode : option bool) : Request :=
  {| req_url := "/api/ai/generate-questions-from-document";
     req_body := FormData (document_form files userInstructions literalMode);
     req_content_type := Some "multipart/form-data" |}.

Definition generateQuestionsFromDocumentAI (post : Transport) (files : list File)
    (userInstructions : option string) (literalMode : option bool) : JsVal :=
  match post (document_request files userInstructions literalMode) with
  | Resolved response => data response
  | Rejected error =>
      match error_response error with
      | Some response =>
          js_or (data response)
                (questions_failure (data response) generic_service_error)
      | None => questions_unreachable connect_service_error
      end
  end.

Definition text_request (rawText : string) (userInstructions : option string)
    (literalMode : option bool) : Request :=
  {| req_url := "/api/ai/generate-questions-from-text";
     req_body :=
       Json (JObj (<["raw_text" := JStr rawText]>
                   (<["user_instructions" := of_option_string userInstructions]>
                    (<["literal_mode" := JBool (default false literalMode)]> ∅))));
     req_content_type := None |}.

Definition generateQuestionsFromTextAI (post : Transport) (rawText : string)
    (userInstructions : option string) (literalMode : option bool) : JsVal :=
  match post (text_request rawText userInstructions literalMode) with
  | Resolved response => data response
  | Rejected error =>
      match error_response error with
      | Some response =>
          js_or (data response)
                (questions_failure (data response) generic_service_error)
      | None => questions_unreachable connect_service_error
      end
  end.

(** *** Explanation of an answer choice *)

Record ExplanationRequestPayload := {
  questionText : string;
  options : list string;
  correctAnswerIndex : Q;
  originalExplanation : option string;
  userQuery : string;
  targetOptionText : option string
}.

Definition explanation_json (p : ExplanationRequestPayload) : JsVal :=
  JObj (<["questionText" := JStr (questionText p)]>
        (<["options" := JArr (map JStr (options p))]>
         (<["correctAnswerIndex" := JNum (correctAnswerIndex p)]>
          (<["originalExplanation" := of_option_string (originalExplanation p)]>
           (<["userQuery" := JStr (userQuery p)]>
            (<["targetOptionText" := of_option_string (targetOptionText p)]> ∅)))))).

Definition explanation_request (p : ExplanationRequestPayload) : Request :=
  {| req_url := "/api/ai/explain-answer-choice";
     req_body := Json (explanation_json p);
     req_content_type := None |}.

Definition generic_explanation_error : string :=
  "An unexpected error with the AI explanation service.".
Definition connect_explanation_error : string :=
  "Failed to connect to the AI explanation service or an unexpected error occurred.".

Definition explanation_failure (d : JsVal) : JsVal :=
  JObj (<["success" := JBool false]>
        (<["explanation" := JNull]>
         (<["message" := js_or (get_opt "detail" d)
                           (js_or (get_opt "message" d)
                                  (JStr generic_explanation_error))]> ∅))).

Definition explanation_unreachable : JsVal :=
  JObj (<["success" := JBool false]>
        (<["explanation" := JNull]>
         (<["message" := JStr connect_explanation_error]> ∅))).

Definition explainAnswerChoiceAI (post : Transport)
    (payload : ExplanationRequestPayload) : JsVal :=
  match post (explanation_request payload) with
  | Resolved response => data response
  | Rejected error =>
      match error_response error with
      | Some response => js_or (data response) (explanation_failure (data response))
      | None => explanation_unreachable
      end
  end.

(** *** Chat *)

Inductive ChatRole := RoleUser | RoleAi.

Record AIChatMessage := { type : ChatRole; content : string }.

(** [thread_id?: string | null] *)
Inductive ThreadId :=
| ThreadAbsent
| ThreadNull
| ThreadGiven (id : string).

Record AIChatRequestPayload := {
  message : string;
  history : option (list AIChatMessage);
  thread_id : ThreadId
}.

Definition thread_json (t : ThreadId) : JsVal :=
  match t with
  | ThreadAbsent => JUndefined
  | ThreadNull => JNull
  | ThreadGiven id => JStr id
  end.

Definition chat_message_json (m : AIChatMessage) : JsVal :=
  JObj (<["type" := JStr (match type m with RoleUser => "user" | RoleAi => "ai" end)]>
        (<["content" := JStr (content m)]> ∅)).

Definition chat_json (p : AIChatRequestPayload) : JsVal :=
  JObj (<["message" := JStr (message p)]>
        (<["history" := match history p with
                        | Some h => JArr (map chat_message_json h)
                        | None => JUndefined
                        end]>
         (<["thread_id" := thread_json (thread_id p)]> ∅))).

Definition chat_request (p : AIChatRequestPayload) : Request :=
  {| req_url := "/api/ai-chat";
     req_body := Json (chat_json p);
     req_content_type := None |}.

Definition defaultErrorMsg : string :=
  "An unexpected error occurred with the AI chat service.".

(** The value of [errorMessage] when the [catch] clause returns. *)
Definition chat_error_message (error : Thrown) : JsVal :=
  match error_response error with
  | Some response =>
      if truthy (data response) then
        js_or (get "detail" (data response))
              (js_or (get "message" (data response)) (JStr defaultErrorMsg))
      else JStr defaultErrorMsg
  | None => JStr defaultErrorMsg
  end.

Definition sendChatMessageToAI (post : Transport)
    (payload : AIChatRequestPayload) : JsVal :=
  match post (chat_request payload) with
  | Resolved backendResponse => spread_with (data backendResponse) "success" (JBool true)
  | Rejected error =>
      JObj (<["success" := JBool false]>
            (<["response" := JStr ""]>
             (<["thread_id" := js_or (thread_json (thread_id payload)) (JStr "")]>
              (<["message" := chat_error_message error]> ∅))))
  end.

(** *** The four operations behind one name *)

Inductive Call :=
| CallDocument (files : list File) (userInstructions : option string)
               (literalMode : option bool)
| CallText (rawText : string) (userInstructions : option string)
           (literalMode : option bool)
| CallExplain (payload : ExplanationRequestPayload)
| CallChat (payload : AIChatRequestPayload).

Definition request_of (c : Call) : Request :=
  match c with
  | CallDocument f u l => document_request f u l
  | CallText t u l => text_request t u l
  | CallExplain p => explanation_request p
  | CallChat p => chat_request p
  end.

Definition invoke (post : Transport) (c : Call) : JsVal :=
  match c with
  | CallDocument f u l => generateQuestionsFromDocumentAI post f u l
  | CallText t u l => generateQuestionsFromTextAI post t u l
  | CallExplain p => explainAnswerChoiceAI post p
  | CallChat p => sendChatMessageToAI post p
  end.

(** The last string of each operation's [detail || message || '...'] chain. *)
Definition generic_fallback (c : Call) : string :=
  match c with
  | CallDocument _ _ _ | CallText _ _ _ => generic_service_error
  | CallExplain _ => generic_explanation_error
  | CallChat _ => defaultErrorMsg
  end.

(** The message of the result when no response is at hand. *)
Definition unreachable_message (c : Call) : string :=
  match c with
  | CallDocument _ _ _ | CallText _ _ _ => connect_service_error
  | CallExplain _ => connect_explanation_error
  | CallChat _ => defaultErrorMsg
  end.

(** *** Reading a form back *)

(** [formData.getAll(key)]: the values appended under [key], in the order
    of the [append] calls. *)
Definition getAll (key : string) (parts : list (string * FormValue)) : list FormValue :=
  map snd (List.filter (fun part => String.eqb (fst part) key) parts).

(** *** Vocabulary of the specification *)

(** The message the specification announces for an error body: its
    [detail] when the body has one, else its [message], else the fallback. *)
Definition announced_message (body : gmap string JsVal) (fallback : string) : JsVal :=
  match body !! "detail" with
  | Some d => d
  | None =>
      match body !! "message" with
      | Some m => m
      | None => JStr fallback
      end
  end.

(** Whether a message speaks of a failure to connect. *)
Definition says_failed_to_connect (v : JsVal) : bool :=
  match v with
  | JStr s => includes "failed to connect" (toLowerCase s)
  | _ => false
  end.

(** *** Sample inputs *)

Definition sample_chat : AIChatRequestPayload :=
  {| message := "What is a synapse?"; history := None; thread_id := ThreadGiven "t-42" |}.

Definition sample_new_chat : AIChatRequestPayload :=
  {| message := "Hello"; history := None; thread_id := ThreadAbsent |}.

Definition detail_body : JsVal := JObj {[ "detail" := JStr "Invalid file" ]}.

Definition answers_with (body : JsVal) : Transport :=
  fun _ => Rejected (AxiosError (Some {| data := body |})).

Definition unreachable : Transport := fun _ => Rejected (AxiosError None).

Definition replies (body : JsVal) : Transport :=
  fun _ => Resolved {| data := body |}.

End AiApi.

(** ** The media viewer *)

Module Viewer.

(** *** The YouTube pattern *)

Fixpoint drop_chars (n : nat) (s : string) : string :=
  match n, s with
  | S k, String _ rest => drop_chars k rest
  | _, _ => s
  end.

(** The longest prefix matched by [[^&]*]. *)
Fixpoint take_non_amp (s : string) : string :=
  match s with
  | EmptyString => EmptyString
  | String c rest =>
      if Ascii.eqb c "&" then EmptyString else String c (take_non_amp rest)
  end.

(** One alternative of the pattern tried at the head of [s]: the literal,
    then the group [([^&]+)], which needs one character at least. *)
Definition literal_then_group (lit s : string) : option string :=
  if String.prefix lit s then
    let g := take_non_amp (drop_chars (String.length lit) s) in
    if String.eqb g "" then None else Some g
  else None.

Definition youtube_at (s : string) : option string :=
  match literal_then_group "youtube.com/watch?v=" s with
  | Some g => Some g
  | None => literal_then_group "youtu.be/" s
  end.

(** Group 1 of [rawUrl.match(/(?:youtube\.com\/watch\?v=|youtu\.be\/)([^&]+)/)]:
    the leftmost position at which an alternative matches wins. *)
Fixpoint youtube_match (s : string) : option string :=
  match youtube_at s with
  | Some g => Some g
  | None =>
      match s with
      | EmptyString => None
      | String _ rest => youtube_match rest
      end
  end.

(** [o || d] on an optional string. *)
Definition or_text (o : option string) (d : string) : string :=
  match o with
  | Some s => if String.eqb s "" then d else s
  | None => d
  end.

(** *** Media descriptor and URL resolution *)

Record Media := {
  path : option string;
  mimetype : option string;
  type : option string;
  originalname : option string
}.

Definition resolveMediaUrl (media : Media) : option string :=
  match path media with
  | None => None
  | Some rawUrl =>
      if String.eqb rawUrl "" then None
      else
        match youtube_match rawUrl with
        | Some id => Some ("https://www.youtube.com/embed/" ++ id)%string
        | None => Some rawUrl
        end
  end.

(** *** Render strategy *)

Inductive Element :=
| YouTubeFrame (src : option string)
| WebsiteFrame (src : option string) (refused : bool)
| Image (src : option string) (alt : string)
| Video (src : option string)
| PdfEmbed (src : option string)
| DocumentLink (href : option string) (text : string)
| MediaLink (href : option string) (text : string).

(** [media.mimetype?.startsWith(p)] *)
Definition mimetype_startsWith (p : string) (media : Media) : bool :=
  match mimetype media with
  | Some m => startsWith p m
  | None => false
  end.

Definition isYouTube (media : Media) : bool :=
  match resolveMediaUrl media with
  | Some url => includes "youtube.com/embed/" url
  | None => false
  end.

Definition isWebsite (media : Media) : bool :=
  match mimetype media with Some m => String.eqb m "text/url" | None => false end
  || match type media with Some t => String.eqb t "url" | None => false end.

Definition renderMedia (media : Media) (iframeError : bool) : Element :=
  let url := resolveMediaUrl media in
  if isYouTube media then YouTubeFrame url
  else if isWebsite media then WebsiteFrame url iframeError
  else if mimetype_startsWith "image/" media then
    Image url (or_text (originalname media) "Image")
  else if mimetype_startsWith "video/" media then Video url
  else if mimetype_startsWith "application/pdf" media then PdfEmbed url
  else if mimetype_startsWith "application/msword" media
          || mimetype_startsWith "application/vnd.openxmlformats-officedocument" media
  then DocumentLink url (or_text (originalname media) "Download Document")
  else MediaLink url (or_text (originalname media) "Download Media").

(** *** Component state *)

Local Open Scope Q_scope.

Record Point := { x : Q; y : Q }.
Record Size := { width : Q; height : Q }.

Record State := {
  isModalOpen : bool;
  position : Point;
  size : Size;
  isDragging : bool;
  isResizing : bool;
  dragStart : Point;
  resizeStart : Size;
  error : option string;
  iframeError : bool
}.

(** The arguments of the [useState] calls. *)
Definition initial : State :=
  {| isModalOpen := false;
     position := {| x := 0; y := 0 |};
     size := {| width := 800; height := 600 |};
     isDragging := false;
     isResizing := false;
     dragStart := {| x := 0; y := 0 |};
     resizeStart := {| width := 0; height := 0 |};
     error := None;
     iframeError := false |}.

(** What the handlers read from the browser: the viewport, and the bounding
    rectangle of [modalRef.current] ([None] while the ref is null). *)
Record Dom := {
  innerWidth : Q;
  innerHeight : Q;
  modalRect : option Size
}.

(** A mouse event: the pointer, and where its target lies. *)
Record MouseEvent := {
  clientX : Q;
  clientY : Q;
  inModal : bool;
  inContent : bool;
  inButton : bool;
  inResizeHandle : bool
}.

(** *** Handlers, as transitions of the state *)

Definition handleOpenModal (dom : Dom) (s : State) : State :=
  {| isModalOpen := true;
     position := {| x := innerWidth dom / 8; y := innerHeight dom / 8 |};
     size := {| width := 800; height := 600 |};
     isDragging := isDragging s;
     isResizing := isResizing s;
     dragStart := dragStart s;
     resizeStart := resizeStart s;
     error := None;
     iframeError := iframeError s |}.

Definition handleCloseModal (s : State) : State :=
  {| isModalOpen := false;
     position := position s;
     size := size s;
     isDragging := false;
     isResizing := false;
     dragStart := dragStart s;
     resizeStart := resizeStart s;
     error := None;
     iframeError := iframeError s |}.

Definition handleClickOutside (dom : Dom) (e : MouseEvent) (s : State) : State :=
  match modalRect dom with
  | Some _ => if negb (inModal e) then handleCloseModal s else s
  | None => s
  end.

Definition handleMouseDown (e : MouseEvent) (s : State) : State :=
  if inContent e || inButton e || inResizeHandle e then s
  else
    {| isModalOpen := isModalOpen s;
       position := position s;
       size := size s;
       isDragging := true;
       isResizing := isResizing s;
       dragStart := {| x := clientX e - x (position s);
                       y := clientY e - y (position s) |};
       resizeStart := resizeStart s;
       error := error s;
       iframeError := iframeError s |}.

Definition setPosition (p : Point) (s : State) : State :=
  {| isModalOpen := isModalOpen s;
     position := p;
     size := size s;
     isDragging := isDragging s;
     isResizing := isResizing s;
     dragStart := dragStart s;
     resizeStart := resizeStart s;
     error := error s;
     iframeError := iframeError s |}.

Definition setSize (sz : Size) (s : State) : State :=
  {| isModalOpen := isModalOpen s;
     position := position s;
     size := sz;
     isDragging := isDragging s;
     isResizing := isResizing s;
     dragStart := dragStart s;
     resizeStart := resizeStart s;
     error := error s;
     iframeError := iframeError s |}.

Definition handleMouseMove (dom : Dom) (e : MouseEvent) (s : State) : State :=
  if isDragging s then
    let newX := clientX e - x (dragStart s) in
    let newY := clientY e - y (dragStart s) in
    match modalRect dom with
    | Some rect =>
        let maxX := innerWidth dom - width rect in
        let maxY := innerHeight dom - height rect in
        setPosition {| x := Qmax 0 (Qmin newX maxX);
                       y := Qmax 0 (Qmin newY maxY) |} s
    | None => s
    end
  else if isResizing s then
    let newWidth := Qmax 300 (width (resizeStart s) + (clientX e - x (dragStart s))) in
    let newHeight := Qmax 200 (height (resizeStart s) + (clientY e - y (dragStart s))) in
    setSize {| width := newWidth; height := newHeight |} s
  else s.

Definition handleMouseUp (s : State) : State :=
  {| isModalOpen := isModalOpen s;
     position := position s;
     size := size s;
     isDragging := false;
     isResizing := false;
     dragStart := dragStart s;
     resizeStart := resizeStart s;
     error := error s;
     iframeError := iframeError s |}.

Definition handleResizeMouseDown (e : MouseEvent) (s : State) : State :=
  {| isModalOpen := isModalOpen s;
     position := position s;
     size := size s;
     isDragging := isDragging s;
     isResizing := true;
     dragStart := {| x := clientX e; y := clientY e |};
     resizeStart := {| width := width (size s); height := height (size s) |};
     error := error s;
     iframeError := iframeError s |}.

(** [setError(msg)] of the [onError] callbacks, [setIframeError(true)] of
    the frame's [onLoad]. *)
Definition setError (msg : string) (s : State) : State :=
  {| isModalOpen := isModalOpen s;
     position := position s;
     size := size s;
     isDragging := isDragging s;
     isResizing := isResizing s;
     dragStart := dragStart s;
     resizeStart := resizeStart s;
     error := Some msg;
     iframeError := iframeError s |}.

Definition setIframeError (s : State) : State :=
  {| isModalOpen := isModalOpen s;
     position := position s;
     size := size s;
     isDragging := isDragging s;
     isResizing := isResizing s;
     dragStart := dragStart s;
     resizeStart := resizeStart s;
     error := error s;
     iframeError := true |}.

(** *** Events *)

(** The open button is always rendered. The modal, its handlers and the
    document listeners of the effect exist only while [isModalOpen]
    holds, so the other events reach a handler in an open viewer only. *)
Inductive Event :=
| OpenClick
| CloseClick
| DocumentMouseDown (e : MouseEvent)
| ModalMouseDown (e : MouseEvent)
| ResizeHandleMouseDown (e : MouseEvent)
| DocumentMouseMove (e : MouseEvent)
| DocumentMouseUp
| LoadError (msg : string)
| FrameLoadedEmpty.

Definition step (dom : Dom) (ev : Event) (s : State) : State :=
  match ev with
  | OpenClick => handleOpenModal dom s
  | _ =>
      if isModalOpen s then
        match ev with
        | OpenClick => s
        | CloseClick => handleCloseModal s
        | DocumentMouseDown e => handleClickOutside dom e s
        | ModalMouseDown e => handleMouseDown e s
        | ResizeHandleMouseDown e => handleResizeMouseDown e s
        | DocumentMouseMove e => handleMouseMove dom e s
        | DocumentMouseUp => handleMouseUp s
        | LoadError msg => setError msg s
        | FrameLoadedEmpty => setIframeError s
        end
      else s
  end.

Fixpoint run (trace : list (Dom * Event)) (s : State) : State :=
  match trace with
  | [] => s
  | (dom, ev) :: rest => run rest (step dom ev s)
  end.

(** *** What the component returns *)

Inductive Content :=
| ErrorText (msg : string)
| Rendered (el : Element).

Record ModalView := {
  modal_width : Q;
  modal_height : Q;
  modal_left : Q;
  modal_top : Q;
  modal_title : string;
  modal_content : Content
}.

Record View := {
  button_label : string;
  modal : option ModalView
}.

(** The value the component function returns; [None] is the [null] of the
    early return. What React makes of a render, given the hooks the
    function called on its way, is [render] below. *)
Definition MediaDisplay (media : option Media) (label : option string)
    (s : State) : option View :=
  match media with
  | None => None
  | Some m =>
      match path m with
      | None => None
      | Some p =>
          if String.eqb p "" then None
          else
            Some {| button_label := or_text label "View Media";
                    modal :=
                      if isModalOpen s then
                        Some {| modal_width := width (size s);
                                modal_height := height (size s);
                                modal_left := x (position s);
                                modal_top := y (position s);
                                modal_title := or_text (originalname m) "Media";
                                modal_content :=
                                  match error s with
                                  | Some msg =>
                                      if String.eqb msg "" then
                                        Rendered (renderMedia m (iframeError s))
                                      else ErrorText msg
                                  | None => Rendered (renderMedia m (iframeError s))
                                  end |}
                      else None |}
      end
  end.

(** *** The selection as an ordered rule list *)

(** The specification words the selection as a list of (predicate,
    strategy) pairs tried from the top, the first match winning, with the
    generic link when none matches. The pairs are listed in the order the
    specification gives; the first predicate is the test the code makes
    on the resolved URL. *)
Definition Rule : Type := (Media -> bool) * (Media -> bool -> Element).

Definition strategies : list Rule :=
  [ (isYouTube, fun m _ => YouTubeFrame (resolveMediaUrl m));
    (isWebsite, fun m refused => WebsiteFrame (resolveMediaUrl m) refused);
    (mimetype_startsWith "image/",
      fun m _ => Image (resolveMediaUrl m) (or_text (originalname m) "Image"));
    (mimetype_startsWith "video/", fun m _ => Video (resolveMediaUrl m));
    (mimetype_startsWith "application/pdf", fun m _ => PdfEmbed (resolveMediaUrl m));
    (fun m => mimetype_startsWith "application/msword" m
              || mimetype_startsWith "application/vnd.openxmlformats-officedocument" m,
      fun m _ => DocumentLink (resolveMediaUrl m)
                   (or_text (originalname m) "Download Document")) ].

Definition generic_link (m : Media) : Element :=
  MediaLink (resolveMediaUrl m) (or_text (originalname m) "Download Media").

Fixpoint first_match (rules : list Rule) (m : Media) (refused : bool) : Element :=
  match rules with
  | [] => generic_link m
  | (applies, build) :: rest =>
      if applies m then build m refused else first_match rest m refused
  end.

(** *** The size invariant *)

Definition size_ok (s : State) : Prop :=
  300 <= width (size s) /\ 200 <= height (size s).

(** *** Sample inputs *)

Definition watch_link (mime : option string) : Media :=
  {| path := Some "https://www.youtube.com/watch?v=ABC123";
     mimetype := mime; type := None; originalname := None |}.

Definition pointer (px py : Q) : MouseEvent :=
  {| clientX := px; clientY := py; inModal := true; inContent := false;
     inButton := false; inResizeHandle := false |}.

(** A viewport of 500 by 400, in which the modal is held to 450 by 360 by
    its [maxWidth] and [maxHeight]. *)
Definition narrow_dom : Dom :=
  {| innerWidth := 500; innerHeight := 400;
     modalRect := Some {| width := 450; height := 360 |} |}.

(** A viewport of 1600 by 900 in which the modal measures 800 by 600. *)
Definition wide_dom : Dom :=
  {| innerWidth := 1600; innerHeight := 900;
     modalRect := Some {| width := 800; height := 600 |} |}.

(** The viewer just opened in [wide_dom], then grabbed at (250, 120). *)
Definition dragging : State :=
  handleMouseDown (pointer 250 120) (handleOpenModal wide_dom initial).

(** *** Observations used by the further facts *)

(** The [src] or [href] an element is given. *)
Definition element_src (el : Element) : option string :=
  match el with
  | YouTubeFrame src | WebsiteFrame src _ | Image src _ | Video src | PdfEmbed src => src
  | DocumentLink href _ | MediaLink href _ => href
  end.

(** What the content area of the modal shows, when there is a modal. *)
Definition shown_content (v : option View) : option Content :=
  match v with
  | Some view =>
      match modal view with
      | Some mv => Some (modal_content mv)
      | None => None
      end
  | None => None
  end.

Definition viewport_ok (dom : Dom) : Prop :=
  0 <= innerWidth dom /\ 0 <= innerHeight dom.

Definition position_ok (s : State) : Prop :=
  0 <= x (position s) /\ 0 <= y (position s).

Definition idle_when_closed (s : State) : Prop :=
  isModalOpen s = false ->
  isDragging s = false /\ isResizing s = false /\ error s = None.

(** A picture whose loading can fail. *)
Definition picture : Media :=
  {| path := Some "https://cdn.example.org/figures/axon.png"%string;
     mimetype := Some "image/png"%string; type := None;
     originalname := Some "axon.png"%string |}.

(** Open in [wide_dom], a load error, then the close button. *)
Definition failed_then_closed : list (Dom * Event) :=
  [ (wide_dom, OpenClick);
    (wide_dom, LoadError "Failed to load image");
    (wide_dom, CloseClick) ].

(** Open in [wide_dom], grab the chrome at (250, 120), pull far up and left. *)
Definition pulled_out : list (Dom * Event) :=
  [ (wide_dom, OpenClick);
    (wide_dom, ModalMouseDown (pointer 250 120));
    (wide_dom, DocumentMouseMove (pointer (-4000) (-4000))) ].

(** The viewer of [dragging], with the resize handle pressed at (1000, 800)
    after the button was released. *)
Definition resizing : State :=
  handleResizeMouseDown (pointer 1000 800) (handleMouseUp dragging).

(** *** The measured modal *)

(** The element [modalRef] points at is rendered with the inline style
    [maxWidth: '90vw', maxHeight: '90vh'], so the rectangle
    [getBoundingClientRect] returns for it is at most nine tenths of the
    viewport in each dimension; the viewport dimensions are not negative. *)
Definition within_style_cap (dom : Dom) : Prop :=
  0 <= innerWidth dom /\ 0 <= innerHeight dom
  /\ match modalRect dom with
     | Some rect =>
         width rect <= (9 # 10) * innerWidth dom
         /\ height rect <= (9 # 10) * innerHeight dom
     | None => True
     end.

(** *** Hooks *)

(** [!media || !media.path] negated: the descriptor has a path to show. *)
Definition usable_path (media : option Media) : bool :=
  match media with
  | Some m =>
      match path m with
      | Some p => negb (String.eqb p "")
      | None => false
      end
  | None => false
  end.

(** The hooks one call of the function goes through: eight [useState], two
    [useRef] and the [useState] of [iframeError] stand before the early
    return, the [useEffect] stands after it. *)
Definition hooks_called (media : option Media) : nat :=
  if usable_path media then 12%nat else 11%nat.

(** A render either yields the function's value or is refused by React,
    which requires an update to call the hooks the previous render of the
    same component called: "Rendered fewer hooks than expected" or "Rendered
    more hooks than during the previous render". *)
Inductive RenderOutcome :=
| Output (v : option View)
| FewerHooks
| MoreHooks.

(** [previous] is the descriptor of the previous render of the component,
    [None] when this render mounts it. *)
Definition render (previous : option (option Media)) (media : option Media)
    (label : option string) (s : State) : RenderOutcome :=
  match previous with
  | None => Output (MediaDisplay media label s)
  | Some before =>
      if (hooks_called media <? hooks_called before)%nat then FewerHooks
      else if (hooks_called before <? hooks_called media)%nat then MoreHooks
      else Output (MediaDisplay media label s)
  end.

(** The descriptor of a question whose media was removed. *)
Definition removed_media : Media :=
  {| path := Some ""%string; mimetype := Some "image/png"%string;
     type := None; originalname := None |}.

End Viewer.

(** ** Facts about the AI client *)

Section AiClient.

Import AiApi.

Lemma get_obj (k : string) (m : gmap string JsVal) (v : JsVal) :
  m !! k = Some v -> get k (JObj m) = v.
Proof. intros H. unfold get, own_props. now rewrite H. Qed.

Lemma js_or_truthy (a b : JsVal) : truthy a = true -> js_or a b = a.
Proof. intros H. unfold js_or. now rewrite H. Qed.

Lemma js_or_falsy (a b : JsVal) : truthy a = false -> js_or a b = b.
Proof. intros H. unfold js_or. now rewrite H. Qed.

Lemma error_response_none_cases (e : Thrown) :
  error_response e = None -> e = AxiosError None \/ e = OtherError.
Proof. destruct e as [[r|]|]; cbn; intros H; try discriminate; auto. Qed.

(** A body that is present wins over the synthesized failure record in the
    three operations that return [error.response.data || {...}]. *)
Lemma document_error_body (post : Transport) files ui lm (body : JsVal) :
  post (document_request files ui lm) = Rejected (AxiosError (Some {| data := body |})) ->
  truthy body = true ->
  generateQuestionsFromDocumentAI post files ui lm = body.
Proof.
  intros Hpost Hbody. unfold generateQuestionsFromDocumentAI.
  rewrite Hpost. cbn. now apply js_or_truthy.
Qed.

Lemma text_error_body (post : Transport) rawText ui lm (body : JsVal) :
  post (text_request rawText ui lm) = Rejected (AxiosError (Some {| data := body |})) ->
  truthy body = true ->
  generateQuestionsFromTextAI post rawText ui lm = body.
Proof.
  intros Hpost Hbody. unfold generateQuestionsFromTextAI.
  rewrite Hpost. cbn. now apply js_or_truthy.
Qed.

Lemma explain_error_body (post : Transport) payload (body : JsVal) :
  post (explanation_request payload) = Rejected (AxiosError (Some {| data := body |})) ->
  truthy body = true ->
  explainAnswerChoiceAI post payload = body.
Proof.
  intros Hpost Hbody. unfold explainAnswerChoiceAI.
  rewrite Hpost. cbn. now apply js_or_truthy.
Qed.

(** The synthesized record is reached with a falsy body only, on which both
    reads of the chain are falsy: its message is always the last string. *)
Lemma falsy_body_chain (d : JsVal) (fallback : string) :
  truthy d = false ->
  js_or (get_opt "detail" d) (js_or (get_opt "message" d) (JStr fallback))
  = JStr fallback.
Proof.
  destruct d as [| |b|q|s|l|m]; cbn; intros H; try discriminate; try reflexivity.
  destruct s; [reflexivity | discriminate].
Qed.

Lemma chat_failure_shape (post : Transport) payload e :
  post (chat_request payload) = Rejected e ->
  sendChatMessageToAI post payload
  = JObj (<["success" := JBool false]>
          (<["response" := JStr ""]>
           (<["thread_id" := js_or (thread_json (thread_id payload)) (JStr "")]>
            (<["message" := chat_error_message e]> ∅)))).
Proof. intros H. unfold sendChatMessageToAI. now rewrite H. Qed.

Lemma thread_echo (t : ThreadId) :
  js_or (thread_json t) (JStr "")
  = JStr (match t with ThreadGiven id => id | _ => "" end).
Proof.
  destruct t as [| |id]; cbn; try reflexivity.
  unfold js_or; cbn. destruct (String.eqb_spec id ""); cbn; congruence.
Qed.

(** With a response whose body is empty, the question operations fall back
    to the generic string. *)
Example document_empty_body :
  get "message" (generateQuestionsFromDocumentAI (answers_with (JStr "")) [] None None)
  = JStr generic_service_error.
Proof. vm_compute. reflexivity. Qed.

(** C1 as stated fails: on the error body [{detail: "Invalid file"}] the
    document operation returns the body itself, whose [message] is
    undefined, where the announced message is the body's [detail]. *)
Lemma document_detail_not_reported :
  get "message" (generateQuestionsFromDocumentAI (answers_with detail_body) [] None None)
  = JUndefined
  /\ announced_message {[ "detail" := JStr "Invalid file" ]} generic_service_error
     = JStr "Invalid file"
  /\ get "message" (generateQuestionsFromDocumentAI (answers_with detail_body) [] None None)
     <> announced_message {[ "detail" := JStr "Invalid file" ]} generic_service_error.
Proof.
  assert (H1 : get "message"
                 (generateQuestionsFromDocumentAI (answers_with detail_body) [] None None)
               = JUndefined) by (vm_compute; reflexivity).
  assert (H2 : announced_message {[ "detail" := JStr "Invalid file" ]} generic_service_error
               = JStr "Invalid file") by (vm_compute; reflexivity).
  repeat split; trivial. rewrite H1, H2. discriminate.
Qed.

(** C1, amended: when the transport fails with a response whose body is
    truthy, the chat operation's [message] is the body's [detail] if that is
    truthy, else the body's [message] if that is truthy, else the generic
    fallback string of the operation; the three other operations return the
    body itself, unchanged, so their [message] is the body's own. *)
Theorem error_body_message (post : Transport) (c : Call) (body : JsVal) :
  post (request_of c) = Rejected (AxiosError (Some {| data := body |})) ->
  truthy body = true ->
  match c with
  | CallChat _ =>
      get "message" (invoke post c)
      = js_or (get "detail" body)
              (js_or (get "message" body) (JStr (generic_fallback c)))
  | _ => invoke post c = body
  end.
Proof.
  intros Hpost Hbody. destruct c as [files ui lm|rawText ui lm|payload|payload]; cbn in *.
  - now apply document_error_body.
  - now apply text_error_body.
  - now apply explain_error_body.
  - rewrite (chat_failure_shape _ _ _ Hpost).
    erewrite get_obj by (simplify_map_eq; reflexivity).
    unfold chat_error_message. cbn. now rewrite Hbody.
Qed.

Lemma error_body_message_witness :
  get "message" (invoke (answers_with detail_body) (CallChat sample_chat))
  = js_or (get "detail" detail_body)
          (js_or (get "message" detail_body) (JStr defaultErrorMsg)).
Proof.
  apply (error_body_message (answers_with detail_body) (CallChat sample_chat) detail_body);
    reflexivity.
Defined.

(** C2 as stated fails for the chat operation: with no response at all its
    message is the generic default, which does not speak of a failure to
    connect. *)
Lemma chat_unreachable_message_is_generic :
  get "message" (sendChatMessageToAI unreachable sample_new_chat)
  = JStr "An unexpected error occurred with the AI chat service."
  /\ says_failed_to_connect
       (get "message" (sendChatMessageToAI unreachable sample_new_chat)) = false.
Proof. split; vm_compute; reflexivity. Qed.

(** C2, amended: when the transport fails without a response, every
    operation returns [success = false]; the message is the fixed
    "Failed to connect ..." string of the operation for the three
    question and explanation operations, and the generic default message
    for the chat operation. *)
Theorem unreachable_result (post : Transport) (c : Call) (e : Thrown) :
  post (request_of c) = Rejected e ->
  error_response e = None ->
  get "success" (invoke post c) = JBool false
  /\ get "message" (invoke post c) = JStr (unreachable_message c)
  /\ says_failed_to_connect (JStr (unreachable_message c))
     = match c with CallChat _ => false | _ => true end.
Proof.
  intros Hpost He.
  destruct c as [files ui lm|rawText ui lm|payload|payload]; cbn in *.
  - unfold generateQuestionsFromDocumentAI. rewrite Hpost, He.
    repeat split; vm_compute; reflexivity.
  - unfold generateQuestionsFromTextAI. rewrite Hpost, He.
    repeat split; vm_compute; reflexivity.
  - unfold explainAnswerChoiceAI. rewrite Hpost, He.
    repeat split; vm_compute; reflexivity.
  - rewrite (chat_failure_shape _ _ _ Hpost).
    split; [| split].
    + apply get_obj. now simplify_map_eq.
    + erewrite get_obj by (simplify_map_eq; reflexivity).
      unfold chat_error_message. now rewrite He.
    + vm_compute; reflexivity.
Qed.

Lemma unreachable_result_witness :
  get "success" (invoke unreachable (CallExplain
                   {| questionText := "Q"; options := ["a"; "b"];
                      correctAnswerIndex := 1; originalExplanation := None;
                      userQuery := "why"; targetOptionText := None |}))
  = JBool false
  /\ get "message" (invoke unreachable (CallExplain
                   {| questionText := "Q"; options := ["a"; "b"];
                      correctAnswerIndex := 1; originalExplanation := None;
                      userQuery := "why"; targetOptionText := None |}))
     = JStr connect_explanation_error
  /\ says_failed_to_connect (JStr connect_explanation_error) = true.
Proof.
  apply (unreachable_result unreachable
           (CallExplain {| questionText := "Q"; options := ["a"; "b"];
                           correctAnswerIndex := 1; originalExplanation := None;
                           userQuery := "why"; targetOptionText := None |})
           (AxiosError None)); reflexivity.
Defined.

(** C3: on every failure of the chat request, with or without a response
    body, the result's [thread_id] is the thread id of the payload, or the
    empty string when the payload has none (absent or null); it is never
    undefined, and [response] is the empty string. *)
Theorem chat_failure_thread_id (post : Transport) (payload : AIChatRequestPayload)
    (e : Thrown) :
  post (chat_request payload) = Rejected e ->
  get "thread_id" (sendChatMessageToAI post payload)
  = JStr (match thread_id payload with ThreadGiven id => id | _ => "" end)
  /\ get "thread_id" (sendChatMessageToAI post payload) <> JUndefined
  /\ get "response" (sendChatMessageToAI post payload) = JStr "".
Proof.
  intros Hpost. rewrite (chat_failure_shape _ _ _ Hpost).
  assert (Ht : get "thread_id"
                 (JObj (<["success" := JBool false]>
                        (<["response" := JStr ""]>
                         (<["thread_id" := js_or (thread_json (thread_id payload)) (JStr "")]>
                          (<["message" := chat_error_message e]> ∅)))))
               = JStr (match thread_id payload with ThreadGiven id => id | _ => "" end)).
  { erewrite get_obj by (simplify_map_eq; reflexivity). apply thread_echo. }
  split; [exact Ht | split].
  - rewrite Ht. discriminate.
  - apply get_obj. now simplify_map_eq.
Qed.

Lemma chat_failure_thread_id_witness :
  get "thread_id" (sendChatMessageToAI (answers_with detail_body) sample_chat) = JStr "t-42"
  /\ get "thread_id" (sendChatMessageToAI (answers_with detail_body) sample_chat)
     <> JUndefined
  /\ get "response" (sendChatMessageToAI (answers_with detail_body) sample_chat) = JStr "".
Proof.
  apply (chat_failure_thread_id (answers_with detail_body) sample_chat
           (AxiosError (Some {| data := detail_body |}))).
  reflexivity.
Defined.

(** C10: whenever the chat request resolves, the result has
    [success = true], whatever the decoded body is and whatever [success]
    it carries itself: the flag is written after the body is spread. *)
Theorem chat_success_flag (post : Transport) (payload : AIChatRequestPayload)
    (r : AxiosResponse) :
  post (chat_request payload) = Resolved r ->
  get "success" (sendChatMessageToAI post payload) = JBool true.
Proof.
  intros Hpost. unfold sendChatMessageToAI. rewrite Hpost.
  unfold spread_with. apply get_obj. apply lookup_insert_eq.
Qed.

Lemma chat_success_flag_witness :
  get "success"
    (sendChatMessageToAI
       (replies (JObj (<["success" := JBool false]> {[ "response" := JStr "no" ]})))
       sample_chat)
  = JBool true.
Proof.
  apply (chat_success_flag _ sample_chat
           {| data := JObj (<["success" := JBool false]> {[ "response" := JStr "no" ]}) |}).
  reflexivity.
Defined.

End AiClient.

(** ** Facts about the media viewer *)

Section MediaViewer.

Import Viewer.
Local Open Scope Q_scope.

(** [Math.max] returns its first argument itself when the second does not
    exceed it. *)
Lemma Qmax_keeps_left (a v : Q) : v <= a -> Qmax a v = a.
Proof.
  intros H. unfold Qmax, GenericMinMax.gmax.
  destruct (a ?= v) eqn:E; try reflexivity.
  apply Qlt_alt in E. exfalso. now apply (Qle_not_lt v a).
Qed.

Lemma clamp_lower (v hi : Q) : 0 <= Qmax 0 (Qmin v hi).
Proof. apply Q.le_max_l. Qed.

Lemma clamp_upper (v hi : Q) : 0 <= hi -> Qmax 0 (Qmin v hi) <= hi.
Proof. intros H. apply Q.max_lub; [exact H | apply Q.le_min_r]. Qed.

(** With an upper end below zero the clamp is stuck at zero. *)
Lemma clamp_negative_range (v hi : Q) : hi <= 0 -> Qmax 0 (Qmin v hi) = 0.
Proof.
  intros H. apply Qmax_keeps_left.
  apply Qle_trans with hi; [apply Q.le_min_r | exact H].
Qed.

Lemma step_size_ok (dom : Dom) (ev : Event) (s : State) :
  size_ok s -> size_ok (step dom ev s).
Proof.
  intros Hs. unfold size_ok in *.
  assert (Hopen : 300 <= 800 /\ 200 <= 600) by (split; discriminate).
  destruct ev as [| |e|e|e|e| |msg|]; cbn; try exact Hopen;
    destruct (isModalOpen s); try exact Hs.
  - unfold handleClickOutside. destruct (modalRect dom); [|exact Hs].
    destruct (negb (inModal e)); exact Hs.
  - unfold handleMouseDown.
    destruct (inContent e || inButton e || inResizeHandle e); exact Hs.
  - unfold handleMouseMove. destruct (isDragging s).
    + destruct (modalRect dom); exact Hs.
    + destruct (isResizing s); [|exact Hs]. cbn. split; apply Q.le_max_l.
Qed.

Lemma run_size_ok (trace : list (Dom * Event)) (s : State) :
  size_ok s -> size_ok (run trace s).
Proof.
  revert s. induction trace as [|[dom ev] rest IH]; intros s Hs; cbn.
  - exact Hs.
  - apply IH. now apply step_size_ok.
Qed.

Lemma includes_embed (id : string) :
  includes "youtube.com/embed/" ("https://www.youtube.com/embed/" ++ id) = true.
Proof. destruct id; vm_compute; reflexivity. Qed.

Lemma youtube_match_nonempty (p id : string) :
  youtube_match p = Some id -> String.eqb p "" = false.
Proof. destruct p; [discriminate | reflexivity]. Qed.

Lemma resolve_youtube (m : Media) (p id : string) :
  path m = Some p -> youtube_match p = Some id ->
  resolveMediaUrl m = Some ("https://www.youtube.com/embed/" ++ id)%string.
Proof.
  intros Hp Hm. unfold resolveMediaUrl.
  now rewrite Hp, (youtube_match_nonempty p id Hm), Hm.
Qed.

Example short_link_stops_at_ampersand :
  youtube_match "https://youtu.be/xyz&t=10" = Some "xyz"%string.
Proof. vm_compute. reflexivity. Qed.

Example watch_link_without_id_is_kept :
  resolveMediaUrl {| path := Some "https://www.youtube.com/watch?v="%string;
                     mimetype := None; type := None; originalname := None |}
  = Some "https://www.youtube.com/watch?v="%string.
Proof. vm_compute. reflexivity. Qed.

(** The YouTube test of [renderMedia] reads the resolved URL, so a path that
    is an embed URL already takes the YouTube frame as well. *)
Example embed_path_is_youtube :
  renderMedia {| path := Some "https://www.youtube.com/embed/ABC123"%string;
                 mimetype := Some "image/png"%string; type := None;
                 originalname := None |} false
  = YouTubeFrame (Some "https://www.youtube.com/embed/ABC123"%string).
Proof. vm_compute. reflexivity. Qed.

(** What a pointer move stores while dragging, for any measure of the modal:
    the clamped position, never negative, and within the upper end in each
    dimension in which the modal fits the viewport. *)
Lemma drag_position_clamped (dom : Dom) (e : MouseEvent) (s : State) (rect : Size) :
  isDragging s = true ->
  modalRect dom = Some rect ->
  position (handleMouseMove dom e s)
  = {| x := Qmax 0 (Qmin (clientX e - x (dragStart s)) (innerWidth dom - width rect));
       y := Qmax 0 (Qmin (clientY e - y (dragStart s)) (innerHeight dom - height rect)) |}
  /\ 0 <= x (position (handleMouseMove dom e s))
  /\ 0 <= y (position (handleMouseMove dom e s))
  /\ (width rect <= innerWidth dom ->
      x (position (handleMouseMove dom e s)) <= innerWidth dom - width rect)
  /\ (height rect <= innerHeight dom ->
      y (position (handleMouseMove dom e s)) <= innerHeight dom - height rect).
Proof.
  intros Hdrag Hrect. unfold handleMouseMove. rewrite Hdrag, Hrect. cbn.
  split; [reflexivity |]. split; [apply clamp_lower |]. split; [apply clamp_lower |].
  split; intros H; apply clamp_upper; lra.
Qed.

(** C4: for every pointer move handled while dragging, with the modal
    measured at [{w,h}] under its 90vw / 90vh style cap in a viewport
    [{W,H}], the stored position is the component-wise clamp of pointer
    minus recorded offset and satisfies [0 <= x <= W - w] and
    [0 <= y <= H - h]. *)
Theorem drag_position_within_viewport (dom : Dom) (e : MouseEvent) (s : State)
    (rect : Size) :
  within_style_cap dom ->
  isDragging s = true ->
  modalRect dom = Some rect ->
  position (handleMouseMove dom e s)
  = {| x := Qmax 0 (Qmin (clientX e - x (dragStart s)) (innerWidth dom - width rect));
       y := Qmax 0 (Qmin (clientY e - y (dragStart s)) (innerHeight dom - height rect)) |}
  /\ 0 <= x (position (handleMouseMove dom e s))
  /\ x (position (handleMouseMove dom e s)) <= innerWidth dom - width rect
  /\ 0 <= y (position (handleMouseMove dom e s))
  /\ y (position (handleMouseMove dom e s)) <= innerHeight dom - height rect.
Proof.
  intros [Hw [Hh Hcap]] Hdrag Hrect. rewrite Hrect in Hcap. destruct Hcap as [Hcw Hch].
  destruct (drag_position_clamped dom e s rect Hdrag Hrect) as [Hpos [Hx [Hy [Hxu Hyu]]]].
  split; [exact Hpos |]. split; [exact Hx |]. split; [apply Hxu; lra |].
  split; [exact Hy | apply Hyu; lra].
Qed.

Lemma drag_position_within_viewport_witness :
  position (handleMouseMove wide_dom (pointer 2000 (-50)) dragging)
  = {| x := Qmax 0 (Qmin (2000 - x (dragStart dragging)) (1600 - 800));
       y := Qmax 0 (Qmin (-50 - y (dragStart dragging)) (900 - 600)) |}
  /\ 0 <= x (position (handleMouseMove wide_dom (pointer 2000 (-50)) dragging))
  /\ x (position (handleMouseMove wide_dom (pointer 2000 (-50)) dragging)) <= 1600 - 800
  /\ 0 <= y (position (handleMouseMove wide_dom (pointer 2000 (-50)) dragging))
  /\ y (position (handleMouseMove wide_dom (pointer 2000 (-50)) dragging)) <= 900 - 600.
Proof.
  apply (drag_position_within_viewport wide_dom (pointer 2000 (-50)) dragging
           {| width := 800; height := 600 |});
    [repeat split; discriminate | reflexivity | reflexivity].
Defined.

(** C5: in every state the viewer reaches from its initial state, by any
    sequence of events, the size has [width >= 300] and [height >= 200];
    and from a size of 800 by 600, pressing the resize handle and moving
    the pointer by (-1000, -1000) stores exactly 300 by 200. *)
Theorem size_never_below_minimum :
  (forall trace : list (Dom * Event),
      300 <= width (size (run trace initial))
      /\ 200 <= height (size (run trace initial)))
  /\ (forall (dom : Dom) (s : State) (down move : MouseEvent),
         isDragging s = false ->
         size s = {| width := 800; height := 600 |} ->
         clientX move == clientX down - 1000 ->
         clientY move == clientY down - 1000 ->
         size (handleMouseMove dom move (handleResizeMouseDown down s))
         = {| width := 300; height := 200 |}).
Proof.
  split.
  - intros trace. apply (run_size_ok trace initial). split; discriminate.
  - intros dom s down move Hdrag Hsize Hx Hy.
    unfold handleMouseMove, handleResizeMouseDown. cbn. rewrite Hdrag, Hsize. cbn.
    f_equal; apply Qmax_keeps_left; lra.
Qed.

Lemma size_never_below_minimum_witness :
  size (handleMouseMove wide_dom (pointer 400 300)
          (handleResizeMouseDown (pointer 1400 1300) (handleOpenModal wide_dom initial)))
  = {| width := 300; height := 200 |}.
Proof.
  apply (proj2 size_never_below_minimum wide_dom (handleOpenModal wide_dom initial)
           (pointer 1400 1300) (pointer 400 300)); reflexivity.
Defined.

(** C6: a descriptor whose path is
    [https://www.youtube.com/watch?v=ABC123] resolves to
    [https://www.youtube.com/embed/ABC123], whatever its other fields. *)
Theorem resolve_watch_link (mime ty name : option string) :
  resolveMediaUrl {| path := Some "https://www.youtube.com/watch?v=ABC123";
                     mimetype := mime; type := ty; originalname := name |}
  = Some "https://www.youtube.com/embed/ABC123".
Proof. reflexivity. Qed.

(** C7: the strategy is the first match of the ordered list YouTube,
    website, image, video, PDF, word-processor document, with the generic
    link last; a path that matches the YouTube watch or short-link pattern
    selects the YouTube frame on the embed URL whatever mimetype and type
    are declared; and a website descriptor that is not a YouTube one gets
    the website frame whatever its mimetype. *)
Theorem render_strategy_order (m : Media) (refused : bool) :
  renderMedia m refused = first_match strategies m refused
  /\ (forall p id : string,
         path m = Some p -> youtube_match p = Some id ->
         renderMedia m refused
         = YouTubeFrame (Some ("https://www.youtube.com/embed/" ++ id)%string))
  /\ (isYouTube m = false -> isWebsite m = true ->
      renderMedia m refused = WebsiteFrame (resolveMediaUrl m) refused).
Proof.
  split; [| split].
  - unfold renderMedia. cbn.
    repeat match goal with |- context [if ?b then _ else _] => destruct b end;
      reflexivity.
  - intros p id Hp Hm. unfold renderMedia, isYouTube.
    rewrite (resolve_youtube m p id Hp Hm). now rewrite includes_embed.
  - intros Hy Hw. unfold renderMedia. now rewrite Hy, Hw.
Qed.

Lemma render_strategy_order_witness :
  renderMedia (watch_link (Some "image/png")) false
  = YouTubeFrame (Some "https://www.youtube.com/embed/ABC123").
Proof.
  apply (proj1 (proj2 (render_strategy_order (watch_link (Some "image/png")) false))
           "https://www.youtube.com/watch?v=ABC123" "ABC123"); reflexivity.
Defined.

(** The function's own value on a descriptor without a usable path is
    null. *)
Lemma early_return_value (media : option Media) (label : option string) (s : State) :
  usable_path media = false -> MediaDisplay media label s = None.
Proof.
  unfold usable_path, MediaDisplay. destruct media as [m|]; [| reflexivity].
  destruct (path m) as [p|]; [| reflexivity].
  destruct (String.eqb p ""); [reflexivity | discriminate].
Qed.

(** C8, as far as the code keeps it and where it breaks it: for a
    descriptor that is absent or whose path is absent or empty, the render
    that mounts the component and every render that follows one without a
    usable path yield null; but a render that follows one with a usable path
    is refused, the early return having skipped the [useEffect] the previous
    render called: the component fails instead of rendering nothing. *)
Theorem no_path_render_outcome (before media : option Media) (label : option string)
    (s : State) :
  usable_path media = false ->
  render None media label s = Output None
  /\ (usable_path before = false -> render (Some before) media label s = Output None)
  /\ (usable_path before = true -> render (Some before) media label s = FewerHooks).
Proof.
  intros Hm. unfold render, hooks_called. rewrite Hm, (early_return_value _ _ _ Hm).
  split; [reflexivity |]. split; intros Hb; rewrite Hb; reflexivity.
Qed.

Lemma no_path_render_outcome_witness :
  render (Some (Some picture)) (Some removed_media) (Some "Figure 1"%string)
         (handleOpenModal wide_dom initial)
  = FewerHooks.
Proof.
  apply (proj2 (proj2 (no_path_render_outcome (Some picture) (Some removed_media)
                         (Some "Figure 1"%string) (handleOpenModal wide_dom initial)
                         eq_refl)) eq_refl).
Defined.

(** The other way round fails as well: a descriptor that gains a usable path
    calls one hook more than the render before it. *)
Lemma path_gained_render_outcome (before media : option Media) (label : option string)
    (s : State) :
  usable_path before = false -> usable_path media = true ->
  render (Some before) media label s = MoreHooks.
Proof. intros Hb Hm. unfold render, hooks_called. now rewrite Hb, Hm. Qed.


End MediaViewer.


(** ** Further facts about the AI client *)

Section AiClientMore.

Import AiApi.

Lemma js_or_keeps_truthy (a c : JsVal) : truthy c = true -> truthy (js_or a c) = true.
Proof. intros Hc. unfold js_or. destruct (truthy a) eqn:Ha; assumption. Qed.

Lemma pretty_N_char_digit (n : N) : is_digit (pretty_N_char n) = true.
Proof.
  destruct n as [|p]; [reflexivity |].
  do 4 (destruct p as [p|p|]; try reflexivity).
Qed.

Lemma pretty_N_go_digits (n : N) (s : string) :
  all_digits s = true -> all_digits (pretty_N_go n s) = true.
Proof.
  revert s. induction (N.lt_wf_0 n) as [n _ IH]. intros s Hs.
  destruct (decide (0 < n)%N) as [Hpos|Hzero].
  - rewrite pretty_N_go_step by exact Hpos. apply IH.
    + now apply N.div_lt.
    + cbn [all_digits]. now rewrite pretty_N_char_digit, Hs.
  - assert (n = 0%N) as -> by lia. now rewrite pretty_N_go_0.
Qed.

Lemma pretty_nat_digits (i : nat) : all_digits (pretty i) = true.
Proof.
  unfold pretty, pretty_nat, pretty, pretty_N.
  destruct (decide (N.of_nat i = 0%N)); [reflexivity |].
  now apply pretty_N_go_digits.
Qed.

Lemma index_key_differs (i : nat) (k : string) : all_digits k = false -> pretty i <> k.
Proof. intros Hk Heq. rewrite <- Heq, pretty_nat_digits in Hk. discriminate. Qed.

Lemma chars_from_lookup (k : string) (s : string) (i : nat) :
  all_digits k = false ->
  (list_to_map (chars_from i s) : gmap string JsVal) !! k = None.
Proof.
  intros Hk. revert i. induction s as [|c rest IH]; intros i; cbn.
  - apply lookup_empty.
  - rewrite lookup_insert_ne by now apply index_key_differs. apply IH.
Qed.

Lemma items_from_lookup (k : string) (l : list JsVal) (i : nat) :
  all_digits k = false ->
  (list_to_map (items_from i l) : gmap string JsVal) !! k = None.
Proof.
  intros Hk. revert i. induction l as [|v rest IH]; intros i; cbn.
  - apply lookup_empty.
  - rewrite lookup_insert_ne by now apply index_key_differs. apply IH.
Qed.

(** A value that is not an object has neither [detail] nor [message]. *)
Lemma no_named_field (k : string) (v : JsVal) :
  all_digits k = false -> String.eqb k "length" = false ->
  (forall m, v <> JObj m) -> get k v = JUndefined.
Proof.
  intros Hk Hlen Hobj. unfold get. rewrite Hlen.
  destruct v as [| |b|q|s|l|m]; cbn; try reflexivity.
  - now rewrite chars_from_lookup.
  - now rewrite items_from_lookup.
  - now destruct (Hobj m).
Qed.

(** X1: when the transport fails with a response whose body is falsy
    (absent, null, empty string, zero, false), the question and explanation
    operations return exactly the synthesized failure record with the generic
    message of the operation, and the chat operation reports its default
    message: the [detail] and [message] reads find nothing on such a body. *)
Theorem empty_error_body_result (post : Transport) (c : Call) (body : JsVal) :
  post (request_of c) = Rejected (AxiosError (Some {| data := body |})) ->
  truthy body = false ->
  match c with
  | CallDocument _ _ _ | CallText _ _ _ =>
      invoke post c
      = JObj (<["success" := JBool false]>
              (<["data" := JNull]>
               (<["message" := JStr "An unexpected error occurred with the AI service."]> ∅)))
  | CallExplain _ =>
      invoke post c
      = JObj (<["success" := JBool false]>
              (<["explanation" := JNull]>
               (<["message" := JStr "An unexpected error with the AI explanation service."]> ∅)))
  | CallChat _ =>
      get "message" (invoke post c)
      = JStr "An unexpected error occurred with the AI chat service."
  end.
Proof.
  intros Hpost Hbody.
  destruct c as [files ui lm|rawText ui lm|payload|payload]; cbn in *.
  - unfold generateQuestionsFromDocumentAI. rewrite Hpost. cbn.
    rewrite js_or_falsy by exact Hbody. unfold questions_failure.
    now rewrite falsy_body_chain.
  - unfold generateQuestionsFromTextAI. rewrite Hpost. cbn.
    rewrite js_or_falsy by exact Hbody. unfold questions_failure.
    now rewrite falsy_body_chain.
  - unfold explainAnswerChoiceAI. rewrite Hpost. cbn.
    rewrite js_or_falsy by exact Hbody. unfold explanation_failure.
    now rewrite falsy_body_chain.
  - rewrite (chat_failure_shape _ _ _ Hpost).
    erewrite get_obj by (simplify_map_eq; reflexivity).
    unfold chat_error_message. cbn. now rewrite Hbody.
Qed.

Lemma empty_error_body_result_witness :
  invoke (answers_with (JStr "")) (CallText "Neurons fire." None None)
  = JObj (<["success" := JBool false]>
          (<["data" := JNull]>
           (<["message" := JStr "An unexpected error occurred with the AI service."]> ∅))).
Proof.
  apply (empty_error_body_result (answers_with (JStr ""))
           (CallText "Neurons fire." None None) (JStr "")); reflexivity.
Defined.

(** X2: whatever the transport throws at the chat operation, the result has
    [success = false] and a truthy [message]: it is never undefined, null or
    the empty string. *)
Theorem chat_failure_flags (post : Transport) (payload : AIChatRequestPayload)
    (e : Thrown) :
  post (chat_request payload) = Rejected e ->
  get "success" (sendChatMessageToAI post payload) = JBool false
  /\ truthy (get "message" (sendChatMessageToAI post payload)) = true.
Proof.
  intros Hpost. rewrite (chat_failure_shape _ _ _ Hpost). split.
  - apply get_obj. now simplify_map_eq.
  - erewrite get_obj by (simplify_map_eq; reflexivity).
    unfold chat_error_message.
    destruct (error_response e) as [r|]; [| reflexivity].
    destruct (truthy (data r)); [| reflexivity].
    apply js_or_keeps_truthy. now apply js_or_keeps_truthy.
Qed.

Lemma chat_failure_flags_witness :
  get "success"
    (sendChatMessageToAI (answers_with (JObj {[ "detail" := JStr "" ]})) sample_chat)
  = JBool false
  /\ truthy (get "message"
       (sendChatMessageToAI (answers_with (JObj {[ "detail" := JStr "" ]})) sample_chat))
     = true.
Proof.
  apply (chat_failure_flags (answers_with (JObj {[ "detail" := JStr "" ]})) sample_chat
           (AxiosError (Some {| data := JObj {[ "detail" := JStr "" ]} |}))).
  reflexivity.
Defined.

(** X3: when the chat request resolves with an object, every field of that
    object other than [success] reaches the caller unchanged. *)
Theorem chat_success_keeps_fields (post : Transport) (payload : AIChatRequestPayload)
    (body : gmap string JsVal) (k : string) :
  post (chat_request payload) = Resolved {| data := JObj body |} ->
  k <> "success"%string ->
  get k (sendChatMessageToAI post payload) = get k (JObj body).
Proof.
  intros Hpost Hk. unfold sendChatMessageToAI. rewrite Hpost.
  unfold spread_with, get. cbn. now rewrite lookup_insert_ne by congruence.
Qed.

Lemma chat_success_keeps_fields_witness :
  get "thread_id"
    (sendChatMessageToAI
       (replies (JObj (<["response" := JStr "Hi"]> {[ "thread_id" := JStr "t-7" ]})))
       sample_new_chat)
  = get "thread_id" (JObj (<["response" := JStr "Hi"]> {[ "thread_id" := JStr "t-7" ]})).
Proof.
  apply (chat_success_keeps_fields
           (replies (JObj (<["response" := JStr "Hi"]> {[ "thread_id" := JStr "t-7" ]})))
           sample_new_chat (<["response" := JStr "Hi"]> {[ "thread_id" := JStr "t-7" ]})
           "thread_id"); [reflexivity | discriminate].
Defined.

(** X4: when the chat request resolves with a body that has no fields
    (undefined, null, a boolean, a number or the empty string), the result
    is exactly [{success: true}]: [response] and [thread_id] are undefined
    although the call counts as a success. *)
Theorem chat_success_bare_body (post : Transport) (payload : AIChatRequestPayload)
    (body : JsVal) :
  post (chat_request payload) = Resolved {| data := body |} ->
  body = JUndefined \/ body = JNull \/ body = JStr ""
  \/ (exists b, body = JBool b) \/ (exists q, body = JNum q) ->
  sendChatMessageToAI post payload = JObj {[ "success" := JBool true ]}
  /\ get "response" (sendChatMessageToAI post payload) = JUndefined
  /\ get "thread_id" (sendChatMessageToAI post payload) = JUndefined.
Proof.
  intros Hpost Hbody. unfold sendChatMessageToAI. rewrite Hpost.
  assert (Hprops : own_props body = ∅).
  { destruct Hbody as [-> | [-> | [-> | [[b ->] | [q ->]]]]]; reflexivity. }
  unfold spread_with. cbn. rewrite Hprops.
  repeat split; vm_compute; reflexivity.
Qed.

Lemma chat_success_bare_body_witness :
  sendChatMessageToAI (replies JNull) sample_chat = JObj {[ "success" := JBool true ]}
  /\ get "response" (sendChatMessageToAI (replies JNull) sample_chat) = JUndefined
  /\ get "thread_id" (sendChatMessageToAI (replies JNull) sample_chat) = JUndefined.
Proof.
  apply (chat_success_bare_body (replies JNull) sample_chat JNull);
    [reflexivity | right; left; reflexivity].
Defined.

(** X5: when the chat request fails with a response whose body is truthy
    but not an object (plain text, an array, a number, [true]), the message
    of the result is the default message: such a body has no [detail] and no
    [message]. *)
Theorem chat_plain_error_body (post : Transport) (payload : AIChatRequestPayload)
    (body : JsVal) :
  post (chat_request payload) = Rejected (AxiosError (Some {| data := body |})) ->
  truthy body = true ->
  (forall m, body <> JObj m) ->
  get "message" (sendChatMessageToAI post payload)
  = JStr "An unexpected error occurred with the AI chat service.".
Proof.
  intros Hpost Hbody Hobj. rewrite (chat_failure_shape _ _ _ Hpost).
  erewrite get_obj by (simplify_map_eq; reflexivity).
  unfold chat_error_message. cbn. rewrite Hbody.
  rewrite (no_named_field "detail" body), (no_named_field "message" body);
    try reflexivity; assumption.
Qed.

Lemma chat_plain_error_body_witness :
  get "message"
    (sendChatMessageToAI (answers_with (JStr "Internal Server Error")) sample_chat)
  = JStr "An unexpected error occurred with the AI chat service.".
Proof.
  apply (chat_plain_error_body (answers_with (JStr "Internal Server Error")) sample_chat
           (JStr "Internal Server Error")); [reflexivity | reflexivity | discriminate].
Defined.

Lemma getAll_app (key : string) (l1 l2 : list (string * FormValue)) :
  getAll key (l1 ++ l2) = getAll key l1 ++ getAll key l2.
Proof. unfold getAll. now rewrite List.filter_app, map_app. Qed.

Lemma getAll_files (files : list File) :
  getAll "files" (map (fun f => ("files"%string, FormFile f)) files) = map FormFile files.
Proof. induction files as [|f rest IH]; cbn; [reflexivity | now f_equal]. Qed.

Lemma getAll_files_other (key : string) (files : list File) :
  String.eqb "files" key = false ->
  getAll key (map (fun f => ("files"%string, FormFile f)) files) = [].
Proof.
  intros Hk. induction files as [|f rest IH]; [reflexivity |].
  unfold getAll in *. cbn [map List.filter fst]. now rewrite Hk.
Qed.

(** X6: the multipart form of the document operation carries the files
    under the key [files], one part per file, in the order given, whatever
    the instructions and the literal-mode flag are. *)
Theorem document_form_files (files : list File) (userInstructions : option string)
    (literalMode : option bool) :
  getAll "files" (document_form files userInstructions literalMode) = map FormFile files.
Proof.
  unfold document_form. rewrite !getAll_app, getAll_files.
  destruct userInstructions as [s|]; [destruct (String.eqb s "") |];
    cbn; now rewrite app_nil_r.
Qed.

(** X7: the form always has exactly one [literal_mode] part, the text
    ["true"] when the flag is given and true and ["false"] otherwise (also
    when the flag is absent); it has one [user_instructions] part when the
    instructions are a non-empty string and none when they are absent or
    empty. *)
Theorem document_form_fields (files : list File) (userInstructions : option string)
    (literalMode : option bool) :
  getAll "literal_mode" (document_form files userInstructions literalMode)
  = [FormText (match literalMode with Some true => "true" | _ => "false" end)]
  /\ getAll "user_instructions" (document_form files userInstructions literalMode)
     = match userInstructions with
       | Some (String c rest) => [FormText (String c rest)]
       | _ => []
       end.
Proof.
  unfold document_form. rewrite !getAll_app, !getAll_files_other by reflexivity.
  split.
  - destruct userInstructions as [[|c rest]|]; destruct literalMode as [[|]|]; reflexivity.
  - destruct userInstructions as [[|c rest]|]; reflexivity.
Qed.

End AiClientMore.

(** ** Further facts about the media viewer *)

Section MediaViewerMore.

Import Viewer.
Local Open Scope Q_scope.

Lemma clamp_inside (v hi : Q) : 0 <= v -> v <= hi -> Qmax 0 (Qmin v hi) == v.
Proof.
  intros Hlo Hhi.
  assert (Hmin : Qmin v hi == v) by now apply Q.min_l.
  rewrite Q.max_r; [exact Hmin | rewrite Hmin; exact Hlo].
Qed.

Lemma step_idle_when_closed (dom : Dom) (ev : Event) (s : State) :
  idle_when_closed s -> idle_when_closed (step dom ev s).
Proof.
  intros Hs. unfold idle_when_closed.
  destruct (isModalOpen s) eqn:Hopen.
  - (* open: the viewer stays open, or is closed by [handleCloseModal] *)
    destruct ev as [| |e|e|e|e| |msg|]; cbn; rewrite ?Hopen; cbn;
      try (intros Hc; first [discriminate | congruence | (repeat split; reflexivity)]).
    + unfold handleClickOutside. destruct (modalRect dom); [| congruence].
      destruct (negb (inModal e)); cbn; [| congruence].
      intros _; repeat split; reflexivity.
    + unfold handleMouseDown.
      destruct (inContent e || inButton e || inResizeHandle e); cbn; congruence.
    + unfold handleMouseMove. destruct (isDragging s).
      * destruct (modalRect dom); cbn; congruence.
      * destruct (isResizing s); cbn; congruence.
  - (* closed: only the open button acts *)
    destruct ev as [| |e|e|e|e| |msg|]; cbn; rewrite ?Hopen;
      first [discriminate | (intros _; apply Hs; exact Hopen)].
Qed.

Lemma run_idle_when_closed (trace : list (Dom * Event)) (s : State) :
  idle_when_closed s -> idle_when_closed (run trace s).
Proof.
  revert s. induction trace as [|[dom ev] rest IH]; intros s Hs; cbn.
  - exact Hs.
  - apply IH. now apply step_idle_when_closed.
Qed.

(** X8: in every state reached from the initial one, a closed viewer is
    neither dragging nor resizing and holds no error; so the open action on
    a closed viewer yields an idle viewer. *)
Theorem closed_viewer_is_idle (trace : list (Dom * Event)) (dom : Dom) :
  isModalOpen (run trace initial) = false ->
  (isDragging (run trace initial) = false
   /\ isResizing (run trace initial) = false
   /\ error (run trace initial) = None)
  /\ isDragging (step dom OpenClick (run trace initial)) = false
  /\ isResizing (step dom OpenClick (run trace initial)) = false.
Proof.
  intros Hclosed.
  assert (Hidle : idle_when_closed (run trace initial)).
  { apply run_idle_when_closed. intros _. repeat split; reflexivity. }
  destruct (Hidle Hclosed) as [Hd [Hr He]]. cbn. now rewrite Hd, Hr, He.
Qed.

Lemma closed_viewer_is_idle_witness :
  (isDragging (run failed_then_closed initial) = false
   /\ isResizing (run failed_then_closed initial) = false
   /\ error (run failed_then_closed initial) = None)
  /\ isDragging (step narrow_dom OpenClick (run failed_then_closed initial)) = false
  /\ isResizing (step narrow_dom OpenClick (run failed_then_closed initial)) = false.
Proof.
  apply (closed_viewer_is_idle failed_then_closed narrow_dom). reflexivity.
Defined.

Lemma step_position_ok (dom : Dom) (ev : Event) (s : State) :
  viewport_ok dom -> position_ok s -> position_ok (step dom ev s).
Proof.
  intros [Hw Hh] Hs. unfold position_ok in *.
  destruct ev as [| |e|e|e|e| |msg|]; cbn;
    try (destruct (isModalOpen s); exact Hs).
  - split; apply Qle_shift_div_l; try reflexivity; lra.
  - destruct (isModalOpen s); [| exact Hs].
    unfold handleClickOutside. destruct (modalRect dom); [| exact Hs].
    destruct (negb (inModal e)); exact Hs.
  - destruct (isModalOpen s); [| exact Hs].
    unfold handleMouseDown.
    destruct (inContent e || inButton e || inResizeHandle e); exact Hs.
  - destruct (isModalOpen s); [| exact Hs].
    unfold handleMouseMove. destruct (isDragging s).
    + destruct (modalRect dom); [| exact Hs]. cbn. split; apply clamp_lower.
    + destruct (isResizing s); exact Hs.
Qed.

(** X9: as long as the viewport dimensions read at every event are not
    negative, the stored position never has a negative coordinate, whatever
    the events are and whatever the modal measures. *)
Theorem position_never_negative (trace : list (Dom * Event)) :
  Forall (fun entry => viewport_ok (fst entry)) trace ->
  0 <= x (position (run trace initial)) /\ 0 <= y (position (run trace initial)).
Proof.
  intros Hdoms.
  assert (Hgen : forall s, position_ok s -> position_ok (run trace s)).
  { induction Hdoms as [|[dom ev] rest Hdom _ IH]; intros s Hs; cbn.
    - exact Hs.
    - apply IH. now apply step_position_ok. }
  apply (Hgen initial). split; discriminate.
Qed.

Lemma position_never_negative_witness :
  0 <= x (position (run pulled_out initial)) /\ 0 <= y (position (run pulled_out initial)).
Proof.
  apply (position_never_negative pulled_out).
  repeat constructor; discriminate.
Defined.

(** X10: grabbing the chrome and moving the pointer stores the pointer
    minus the offset recorded at the press, [move - (down - position)] in
    each coordinate, when that value lies within [0, W - w] and [0, H - h]:
    the pointer keeps its place on the window. *)
Theorem drag_follows_pointer (dom : Dom) (s : State) (down move : MouseEvent)
    (rect : Size) :
  inContent down || inButton down || inResizeHandle down = false ->
  modalRect dom = Some rect ->
  0 <= clientX move - (clientX down - x (position s)) ->
  clientX move - (clientX down - x (position s)) <= innerWidth dom - width rect ->
  0 <= clientY move - (clientY down - y (position s)) ->
  clientY move - (clientY down - y (position s)) <= innerHeight dom - height rect ->
  isDragging (handleMouseDown down s) = true
  /\ x (position (handleMouseMove dom move (handleMouseDown down s)))
     == clientX move - (clientX down - x (position s))
  /\ y (position (handleMouseMove dom move (handleMouseDown down s)))
     == clientY move - (clientY down - y (position s)).
Proof.
  intros Htarget Hrect Hx0 Hx1 Hy0 Hy1.
  unfold handleMouseDown. rewrite Htarget.
  unfold handleMouseMove. cbn. rewrite Hrect. cbn.
  split; [reflexivity |]. split; now apply clamp_inside.
Qed.

Lemma drag_follows_pointer_witness :
  isDragging (handleMouseDown (pointer 250 120) (handleOpenModal wide_dom initial)) = true
  /\ x (position (handleMouseMove wide_dom (pointer 350 100)
                    (handleMouseDown (pointer 250 120) (handleOpenModal wide_dom initial))))
     == 350 - (250 - x (position (handleOpenModal wide_dom initial)))
  /\ y (position (handleMouseMove wide_dom (pointer 350 100)
                    (handleMouseDown (pointer 250 120) (handleOpenModal wide_dom initial))))
     == 100 - (120 - y (position (handleOpenModal wide_dom initial))).
Proof.
  apply (drag_follows_pointer wide_dom (handleOpenModal wide_dom initial)
           (pointer 250 120) (pointer 350 100) {| width := 800; height := 600 |});
    first [reflexivity | discriminate].
Defined.

(** X11: drag and resize are anchored at the press: of two pointer moves in
    a row only the second one counts, provided the modal can be measured at
    the second one while dragging. *)
Theorem last_move_wins (dom1 dom2 : Dom) (e1 e2 : MouseEvent) (s : State) :
  (isDragging s = true -> modalRect dom2 <> None) ->
  handleMouseMove dom2 e2 (handleMouseMove dom1 e1 s) = handleMouseMove dom2 e2 s.
Proof.
  intros Hrect. unfold handleMouseMove.
  destruct (isDragging s) eqn:Hdrag.
  - destruct (modalRect dom2) as [r2|] eqn:H2; [| now destruct Hrect].
    destruct (modalRect dom1) as [r1|]; cbn; rewrite ?Hdrag, ?H2; reflexivity.
  - destruct (isResizing s) eqn:Hres; cbn; rewrite ?Hdrag, ?Hres; reflexivity.
Qed.

Lemma last_move_wins_witness :
  handleMouseMove wide_dom (pointer 300 300)
    (handleMouseMove narrow_dom (pointer 900 40) dragging)
  = handleMouseMove wide_dom (pointer 300 300) dragging.
Proof.
  apply (last_move_wins narrow_dom wide_dom (pointer 900 40) (pointer 300 300) dragging).
  intros _. discriminate.
Defined.

(** X12: releasing the button ends drag and resize and keeps the geometry
    reached; pointer moves that follow change nothing until the next press. *)
Theorem release_freezes_geometry (dom dom' : Dom) (e : MouseEvent) (s : State) :
  position (step dom DocumentMouseUp s) = position s
  /\ size (step dom DocumentMouseUp s) = size s
  /\ step dom' (DocumentMouseMove e) (step dom DocumentMouseUp s)
     = step dom DocumentMouseUp s.
Proof.
  cbn. destruct (isModalOpen s) eqn:Hopen; cbn; rewrite ?Hopen; repeat split; reflexivity.
Qed.

(** X13: a mouse-down outside the mounted modal of an open viewer closes it,
    ends drag and resize, clears the error and removes the modal from the
    output, while position and size are kept in the state. *)
Theorem click_outside_closes (dom : Dom) (e : MouseEvent) (s : State) (rect : Size)
    (media : option Media) (label : option string) :
  isModalOpen s = true ->
  modalRect dom = Some rect ->
  inModal e = false ->
  isModalOpen (step dom (DocumentMouseDown e) s) = false
  /\ isDragging (step dom (DocumentMouseDown e) s) = false
  /\ isResizing (step dom (DocumentMouseDown e) s) = false
  /\ error (step dom (DocumentMouseDown e) s) = None
  /\ position (step dom (DocumentMouseDown e) s) = position s
  /\ size (step dom (DocumentMouseDown e) s) = size s
  /\ shown_content (MediaDisplay media label (step dom (DocumentMouseDown e) s)) = None.
Proof.
  intros Hopen Hrect Hin. cbn. rewrite Hopen. unfold handleClickOutside.
  rewrite Hrect, Hin. cbn.
  repeat split; try reflexivity.
  unfold MediaDisplay. destruct media as [m|]; [| reflexivity].
  destruct (path m) as [p|]; [| reflexivity].
  destruct (String.eqb p ""); reflexivity.
Qed.

Lemma click_outside_closes_witness :
  shown_content
    (MediaDisplay (Some picture) None
       (step wide_dom
          (DocumentMouseDown {| clientX := 5; clientY := 5; inModal := false;
                                inContent := false; inButton := false;
                                inResizeHandle := false |})
          dragging))
  = None.
Proof.
  apply (click_outside_closes wide_dom
           {| clientX := 5; clientY := 5; inModal := false; inContent := false;
              inButton := false; inResizeHandle := false |}
           dragging {| width := 800; height := 600 |} (Some picture) None
           eq_refl eq_refl eq_refl).
Defined.

Lemma step_iframe_error (dom : Dom) (ev : Event) (s : State) :
  iframeError s = true -> iframeError (step dom ev s) = true.
Proof.
  intros Hs.
  destruct ev as [| |e|e|e|e| |msg|]; cbn; try exact Hs;
    destruct (isModalOpen s); try exact Hs; try reflexivity.
  - unfold handleClickOutside. destruct (modalRect dom); [| exact Hs].
    destruct (negb (inModal e)); exact Hs.
  - unfold handleMouseDown.
    destruct (inContent e || inButton e || inResizeHandle e); exact Hs.
  - unfold handleMouseMove. destruct (isDragging s).
    + destruct (modalRect dom); exact Hs.
    + destruct (isResizing s); exact Hs.
Qed.

(** X14: the refused-frame flag is never cleared: once a frame has loaded
    empty it stays set through every later event, closing and reopening
    included. *)
Theorem iframe_error_is_permanent (trace : list (Dom * Event)) (s : State) :
  iframeError s = true -> iframeError (run trace s) = true.
Proof.
  revert s. induction trace as [|[dom ev] rest IH]; intros s Hs; cbn.
  - exact Hs.
  - apply IH. now apply step_iframe_error.
Qed.

Lemma iframe_error_is_permanent_witness :
  iframeError (run failed_then_closed (setIframeError (handleOpenModal wide_dom initial)))
  = true.
Proof.
  apply (iframe_error_is_permanent failed_then_closed
           (setIframeError (handleOpenModal wide_dom initial))).
  reflexivity.
Defined.

(** X15: a pointer move never opens or closes the viewer, never starts or
    ends a drag or a resize and never touches the error; while dragging it
    leaves the size alone, and otherwise it leaves the position alone. *)
Theorem move_changes_geometry_only (dom : Dom) (e : MouseEvent) (s : State) :
  isModalOpen (handleMouseMove dom e s) = isModalOpen s
  /\ isDragging (handleMouseMove dom e s) = isDragging s
  /\ isResizing (handleMouseMove dom e s) = isResizing s
  /\ dragStart (handleMouseMove dom e s) = dragStart s
  /\ resizeStart (handleMouseMove dom e s) = resizeStart s
  /\ error (handleMouseMove dom e s) = error s
  /\ (isDragging s = true -> size (handleMouseMove dom e s) = size s)
  /\ (isDragging s = false -> position (handleMouseMove dom e s) = position s).
Proof.
  unfold handleMouseMove.
  destruct (isDragging s) eqn:Hdrag;
    [destruct (modalRect dom) | destruct (isResizing s) eqn:Hres];
    cbn; repeat split; intros; congruence.
Qed.

Lemma move_changes_geometry_only_witness :
  size (handleMouseMove wide_dom (pointer 900 700) dragging) = size dragging.
Proof.
  apply (move_changes_geometry_only wide_dom (pointer 900 700) dragging). reflexivity.
Defined.

(** X16: pressing the resize handle of a viewer that is not being dragged
    and moving the pointer stores the size at the press plus the pointer's
    displacement, floored at 300 by 200; above the floor the size follows
    the pointer exactly. *)
Theorem resize_follows_pointer (dom : Dom) (s : State) (down move : MouseEvent) :
  isDragging s = false ->
  size (handleMouseMove dom move (handleResizeMouseDown down s))
  = {| width := Qmax 300 (width (size s) + (clientX move - clientX down));
       height := Qmax 200 (height (size s) + (clientY move - clientY down)) |}
  /\ (300 <= width (size s) + (clientX move - clientX down) ->
      width (size (handleMouseMove dom move (handleResizeMouseDown down s)))
      == width (size s) + (clientX move - clientX down))
  /\ (200 <= height (size s) + (clientY move - clientY down) ->
      height (size (handleMouseMove dom move (handleResizeMouseDown down s)))
      == height (size s) + (clientY move - clientY down)).
Proof.
  intros Hdrag. unfold handleMouseMove, handleResizeMouseDown. cbn. rewrite Hdrag. cbn.
  split; [reflexivity |]. split; intros H; now apply Q.max_r.
Qed.

Lemma resize_follows_pointer_witness :
  size (handleMouseMove wide_dom (pointer 1100 750) resizing)
  = {| width := Qmax 300 (800 + (1100 - 1000)); height := Qmax 200 (600 + (750 - 800)) |}.
Proof.
  apply (resize_follows_pointer wide_dom (handleMouseUp dragging)
           (pointer 1000 800) (pointer 1100 750)).
  reflexivity.
Defined.

(** X17: whichever strategy is selected, the element it builds points at
    the resolved URL of the descriptor. *)
Theorem rendered_element_source (m : Media) (refused : bool) :
  element_src (renderMedia m refused) = resolveMediaUrl m.
Proof.
  unfold renderMedia.
  repeat match goal with |- context [if ?b then _ else _] => destruct b end;
    reflexivity.
Qed.

(** X19: while an error is set the open modal shows the error text in place
    of the media, and the next open action brings the media back. *)
Theorem load_error_replaces_media (m : Media) (label : option string) (dom dom' : Dom)
    (s : State) (c : ascii) (msg : string) :
  resolveMediaUrl m <> None ->
  isModalOpen s = true ->
  shown_content (MediaDisplay (Some m) label (step dom (LoadError (String c msg)) s))
  = Some (ErrorText (String c msg))
  /\ shown_content
       (MediaDisplay (Some m) label
          (step dom' OpenClick (step dom (LoadError (String c msg)) s)))
     = Some (Rendered (renderMedia m (iframeError s))).
Proof.
  intros Hurl Hopen.
  assert (Hpath : exists p, path m = Some p /\ String.eqb p "" = false).
  { unfold resolveMediaUrl in Hurl. destruct (path m) as [p|]; [| now destruct Hurl].
    exists p. split; [reflexivity |]. destruct (String.eqb p ""); [now destruct Hurl | reflexivity]. }
  destruct Hpath as [p [Hp Hne]].
  cbn. rewrite Hopen. unfold MediaDisplay. rewrite Hp, Hne. cbn. rewrite Hopen. cbn.
  split; reflexivity.
Qed.

Lemma load_error_replaces_media_witness :
  shown_content
    (MediaDisplay (Some picture) None
       (step wide_dom (LoadError "Failed to load image") dragging))
  = Some (ErrorText "Failed to load image")
  /\ shown_content
       (MediaDisplay (Some picture) None
          (step narrow_dom OpenClick
             (step wide_dom (LoadError "Failed to load image") dragging)))
     = Some (Rendered (renderMedia picture (iframeError dragging))).
Proof.
  apply (load_error_replaces_media picture None wide_dom narrow_dom dragging
           "F" "ailed to load image"); [discriminate | reflexivity].
Defined.

Local Open Scope string_scope.

Lemma append_cons (c : ascii) (s t : string) : String c s ++ t = String c (s ++ t).
Proof. reflexivity. Qed.

Lemma append_empty_l (t : string) : "" ++ t = t.
Proof. reflexivity. Qed.

Lemma prefix_empty (s : string) : String.prefix "" s = true.
Proof. destruct s; reflexivity. Qed.

Lemma prefix_cons (a b : ascii) (s t : string) :
  String.prefix (String a s) (String b t)
  = if Ascii.eqb a b then String.prefix s t else false.
Proof.
  cbn [String.prefix]. destruct (ascii_dec a b) as [->|Hne].
  - now rewrite Ascii.eqb_refl.
  - apply Ascii.eqb_neq in Hne. now rewrite Hne.
Qed.

Lemma prefix_append (lit u : string) : String.prefix lit (lit ++ u) = true.
Proof.
  induction lit as [|a lit IH].
  - apply prefix_empty.
  - rewrite append_cons, prefix_cons, Ascii.eqb_refl. exact IH.
Qed.

Lemma drop_chars_append (lit u : string) :
  drop_chars (String.length lit) (lit ++ u) = u.
Proof.
  induction lit as [|a lit IH].
  - rewrite append_empty_l. destruct u; reflexivity.
  - rewrite append_cons. cbn [String.length drop_chars]. exact IH.
Qed.

Lemma literal_then_group_hit (lit u : string) :
  literal_then_group lit (lit ++ u)
  = if String.eqb (take_non_amp u) "" then None else Some (take_non_amp u).
Proof.
  unfold literal_then_group. now rewrite prefix_append, drop_chars_append.
Qed.

Lemma includes_amp_cons (c : ascii) (r : string) :
  includes "&" (String c r) = Ascii.eqb c "&" || includes "&" r.
Proof.
  cbn [includes]. rewrite prefix_cons, prefix_empty.
  rewrite (Ascii.eqb_sym "&" c). now destruct (Ascii.eqb c "&").
Qed.

Lemma take_non_amp_clean (s : string) : includes "&" (take_non_amp s) = false.
Proof.
  induction s as [|c r IH]; [reflexivity |].
  cbn [take_non_amp]. destruct (Ascii.eqb c "&") eqn:Hc; [reflexivity |].
  now rewrite includes_amp_cons, Hc, IH.
Qed.

Lemma take_non_amp_stops (id tail : string) :
  includes "&" id = false ->
  tail = "" \/ startsWith "&" tail = true ->
  take_non_amp (id ++ tail) = id.
Proof.
  intros Hid Htail. induction id as [|c r IH].
  - rewrite append_empty_l. destruct Htail as [-> | Hamp]; [reflexivity |].
    destruct tail as [|a t]; [reflexivity |].
    unfold startsWith in Hamp. rewrite prefix_cons in Hamp.
    cbn [take_non_amp]. rewrite (Ascii.eqb_sym a "&").
    destruct (Ascii.eqb "&" a); [reflexivity | discriminate].
  - rewrite includes_amp_cons in Hid. apply orb_false_iff in Hid as [Hc Hr].
    rewrite append_cons. cbn [take_non_amp]. rewrite Hc. f_equal. now apply IH.
Qed.

Lemma youtube_match_eq (s : string) :
  youtube_match s
  = match youtube_at s with
    | Some g => Some g
    | None =>
        match s with
        | EmptyString => None
        | String _ rest => youtube_match rest
        end
    end.
Proof. destruct s; reflexivity. Qed.

Lemma youtube_match_skip (c : ascii) (rest : string) :
  Ascii.eqb "y" c = false -> youtube_match (String c rest) = youtube_match rest.
Proof.
  intros Hc. rewrite youtube_match_eq. unfold youtube_at, literal_then_group.
  now rewrite !prefix_cons, Hc.
Qed.

Lemma literal_then_group_shape (lit s g : string) :
  literal_then_group lit s = Some g -> g <> "" /\ includes "&" g = false.
Proof.
  unfold literal_then_group. destruct (String.prefix lit s); [| discriminate].
  destruct (String.eqb_spec (take_non_amp (drop_chars (String.length lit) s)) "")
    as [Heq|Hne]; [discriminate |].
  intros [= <-]. split; [exact Hne | apply take_non_amp_clean].
Qed.

Lemma youtube_match_shape (s id : string) :
  youtube_match s = Some id -> id <> "" /\ includes "&" id = false.
Proof.
  induction s as [|c r IH]; rewrite youtube_match_eq.
  - vm_compute. discriminate.
  - destruct (youtube_at (String c r)) as [g|] eqn:Hat; [| exact IH].
    intros [= <-]. unfold youtube_at in Hat.
    destruct (literal_then_group "youtube.com/watch?v=" (String c r)) as [g'|] eqn:H1.
    + injection Hat as <-. eapply literal_then_group_shape; eassumption.
    + eapply literal_then_group_shape; eassumption.
Qed.

(** X20: a path that is present and not empty resolves either to itself,
    when the YouTube pattern finds nothing in it, or to the embed URL of a
    video id that is not empty and contains no ampersand. *)
Theorem resolved_url_shape (m : Media) (p : string) :
  path m = Some p ->
  p <> "" ->
  (youtube_match p = None /\ resolveMediaUrl m = Some p)
  \/ (exists id, youtube_match p = Some id
                 /\ id <> "" /\ includes "&" id = false
                 /\ resolveMediaUrl m = Some ("https://www.youtube.com/embed/" ++ id)).
Proof.
  intros Hp Hne. unfold resolveMediaUrl. rewrite Hp.
  destruct (String.eqb_spec p "") as [Heq|_]; [now destruct Hne |].
  destruct (youtube_match p) as [id|] eqn:Hm.
  - right. exists id. destruct (youtube_match_shape p id Hm) as [H1 H2]. auto.
  - left. auto.
Qed.

Lemma resolved_url_shape_witness :
  (youtube_match "https://youtu.be/xyz&t=10" = None
   /\ resolveMediaUrl {| path := Some "https://youtu.be/xyz&t=10"; mimetype := None;
                         type := None; originalname := None |}
      = Some "https://youtu.be/xyz&t=10")
  \/ (exists id, youtube_match "https://youtu.be/xyz&t=10" = Some id
                 /\ id <> "" /\ includes "&" id = false
                 /\ resolveMediaUrl {| path := Some "https://youtu.be/xyz&t=10";
                                       mimetype := None; type := None;
                                       originalname := None |}
                    = Some ("https://www.youtube.com/embed/" ++ id)).
Proof.
  apply (resolved_url_shape
           {| path := Some "https://youtu.be/xyz&t=10"; mimetype := None;
              type := None; originalname := None |}
           "https://youtu.be/xyz&t=10"); [reflexivity | discriminate].
Defined.

Lemma youtube_match_watch (id tail : string) :
  id <> "" -> includes "&" id = false ->
  tail = "" \/ startsWith "&" tail = true ->
  youtube_match ("https://www.youtube.com/watch?v=" ++ id ++ tail) = Some id.
Proof.
  intros Hne Hid Htail.
  change ("https://www.youtube.com/watch?v=" ++ id ++ tail)
    with ("https://www." ++ ("youtube.com/watch?v=" ++ (id ++ tail))).
  rewrite !append_cons, append_empty_l.
  rewrite !youtube_match_skip by reflexivity.
  rewrite youtube_match_eq. unfold youtube_at.
  rewrite <- !append_cons, literal_then_group_hit.
  rewrite take_non_amp_stops by assumption.
  now destruct (String.eqb_spec id "").
Qed.

Lemma youtube_match_short (id tail : string) :
  id <> "" -> includes "&" id = false ->
  tail = "" \/ startsWith "&" tail = true ->
  youtube_match ("https://youtu.be/" ++ id ++ tail) = Some id.
Proof.
  intros Hne Hid Htail.
  change ("https://youtu.be/" ++ id ++ tail)
    with ("https://" ++ ("youtu.be/" ++ (id ++ tail))).
  generalize (id ++ tail) (take_non_amp_stops id tail Hid Htail). intros u Hu.
  rewrite !append_cons, !append_empty_l.
  rewrite !youtube_match_skip by reflexivity.
  rewrite youtube_match_eq. unfold youtube_at.
  assert (Hfirst : literal_then_group "youtube.com/watch?v="
                     (String "y" (String "o" (String "u" (String "t" (String "u"
                       (String "." (String "b" (String "e" (String "/" u)))))))))
                   = None).
  { unfold literal_then_group. now rewrite !prefix_cons. }
  rewrite Hfirst.
  change (String "y" (String "o" (String "u" (String "t" (String "u"
           (String "." (String "b" (String "e" (String "/" u)))))))))
    with ("youtu.be/" ++ u).
  rewrite literal_then_group_hit, Hu.
  now destruct (String.eqb_spec id "").
Qed.

(** X21: every watch link [https://www.youtube.com/watch?v=ID] and every
    short link [https://youtu.be/ID], alone or followed by further
    [&]-separated parameters, resolves to
    [https://www.youtube.com/embed/ID]; the parameters are dropped. *)
Theorem youtube_links_resolve (id tail : string) (mime ty name : option string) :
  id <> "" ->
  includes "&" id = false ->
  tail = "" \/ startsWith "&" tail = true ->
  resolveMediaUrl {| path := Some ("https://www.youtube.com/watch?v=" ++ id ++ tail);
                     mimetype := mime; type := ty; originalname := name |}
  = Some ("https://www.youtube.com/embed/" ++ id)
  /\ resolveMediaUrl {| path := Some ("https://youtu.be/" ++ id ++ tail);
                        mimetype := mime; type := ty; originalname := name |}
     = Some ("https://www.youtube.com/embed/" ++ id).
Proof.
  intros Hne Hid Htail. unfold resolveMediaUrl. cbn [path].
  rewrite youtube_match_watch, youtube_match_short by assumption.
  split; reflexivity.
Qed.

Lemma youtube_links_resolve_witness :
  resolveMediaUrl {| path := Some ("https://www.youtube.com/watch?v=" ++ "dQw4w9WgXcQ"
                                   ++ "&list=PL1&index=2");
                     mimetype := None; type := None; originalname := None |}
  = Some ("https://www.youtube.com/embed/" ++ "dQw4w9WgXcQ")
  /\ resolveMediaUrl {| path := Some ("https://youtu.be/" ++ "dQw4w9WgXcQ"
                                      ++ "&list=PL1&index=2");
                        mimetype := None; type := None; originalname := None |}
     = Some ("https://www.youtube.com/embed/" ++ "dQw4w9WgXcQ").
Proof.
  apply (youtube_links_resolve "dQw4w9WgXcQ" "&list=PL1&index=2" None None None);
    [discriminate | vm_compute; reflexivity | right; vm_compute; reflexivity].
Defined.

End MediaViewerMore.
